(** * Frank Energie integration: the data-update coordinator

    A shallow embedding of
    [custom_components/frank_energie/coordinator.py]: the refresh cycle
    [_async_update_data], the per-window price fetch
    [__fetch_prices_with_fallback] and the token renewal
    [__try_renew_token], written in a small state-and-exception monad
    over the coordinator object.

    The GraphQL client ([self.api]) is an external collaborator.  It is
    a record of oracles, one per operation; within one cycle every
    operation is awaited at most once per argument tuple, so an oracle
    that is a function of the arguments covers every behaviour of the
    client during a cycle.  An oracle answers with a value or with the
    exception it raises. *)

From Stdlib Require Import ZArith String List Bool Lia.
From stdpp Require Import base gmap strings.
Import ListNotations.

Local Open Scope string_scope.

(** ** Keys of the config entry (the host's [homeassistant.const]) *)

Definition CONF_ACCESS_TOKEN : string := "access_token".
Definition CONF_TOKEN : string := "token".

(** ** Exceptions

    [RequestException] and [AuthException] belong to the client
    library, [UpdateFailed] and [ConfigEntryAuthFailed] to the host;
    the four classes are unrelated by inheritance.  [str(ex)] is the
    carried message; [UpdateFailed(ex)] carries [str(ex)].
    [TypeError] is what subscripting [None] raises; [OtherException]
    stands for any class no [except] clause of this file names. *)

Inductive exn : Type :=
| RequestException (msg : string)
| AuthException (msg : string)
| UpdateFailed (msg : string)
| ConfigEntryAuthFailed
| TypeError (msg : string)
| OtherException (msg : string).

Inductive Result (A : Type) : Type :=
| Return (a : A)
| Raise (e : exn).
Arguments Return {A} a.
Arguments Raise {A} e.

(** A calendar date, as its day ordinal; [d + timedelta(days=n)] is
    [d + n]. *)
Definition date : Type := Z.

Inductive LogLevel : Type := DEBUG | INFO | WARNING | ERROR.

(** One awaited operation of the client, with its arguments. *)
Inductive ApiCall : Type :=
| CallPrices (start_date end_date : date)
| CallUserPrices (start_date : date) (site_reference : option string)
| CallMonthSummary (site_reference : option string)
| CallInvoices (site_reference : option string)
| CallRenewToken.

(** [Authentication], the result of [renew_token()]. *)
Record Authentication : Type := mkAuthentication {
  authToken : string;
  refreshToken : string
}.

Section Coordinator.

(** The client library's models are opaque to the coordinator apart
    from [PriceData.all], [PriceData.__add__] and
    [PriceData.get_future_prices]. *)
Variables (Price MonthSummary Invoices : Type).

Record PriceData : Type := mkPriceData {
  all : list Price
}.

(** Modelled from the spec: [PriceData.__add__] of the client library,
    which is not part of this repository (a price series supports
    concatenation): the entries of [a] followed by those of [b]. *)
Definition PriceData_add (a b : PriceData) : PriceData :=
  mkPriceData (all a ++ all b).

(** [PriceData.get_future_prices()]: the entries the client library
    deems to lie in the future; it reads the clock, so it is a
    parameter of the development. *)
Variable get_future_prices : PriceData -> list Price.

(** Truth value of a Python list. *)
Definition truthy {A : Type} (l : list A) : bool :=
  match l with
  | [] => false
  | _ :: _ => true
  end.

Record MarketPrices : Type := mkMarketPrices {
  electricity : PriceData;
  gas : PriceData
}.

Definition set_gas (mp : MarketPrices) (g : PriceData) : MarketPrices :=
  mkMarketPrices (electricity mp) g.

Definition set_electricity (mp : MarketPrices) (e : PriceData) : MarketPrices :=
  mkMarketPrices e (gas mp).

(** [class FrankEnergieData(TypedDict)] *)
Record FrankEnergieData : Type := mkFrankEnergieData {
  DATA_ELECTRICITY : PriceData;
  DATA_GAS : PriceData;
  DATA_MONTH_SUMMARY : option MonthSummary;
  DATA_INVOICES : option Invoices
}.

(** [FrankEnergieApi]: the flag and the five operations the
    coordinator uses. *)
Record FrankEnergieApi : Type := mkFrankEnergieApi {
  is_authenticated : bool;
  prices : date -> date -> exn + MarketPrices;
  user_prices : date -> option string -> exn + MarketPrices;
  month_summary : option string -> exn + MonthSummary;
  invoices : option string -> exn + Invoices;
  renew_token : exn + Authentication
}.

(** [FrankEnergieCoordinator].  [api], [site_reference] and [data] are
    the object's attributes, [entry_data] is [self.entry.data] in the
    host's store, [data] is [None] until a cycle has succeeded.
    [api_calls] and [log] record, oldest first, the operations awaited
    on the client and the records handed to [LOGGER]. *)
Record Coordinator : Type := mkCoordinator {
  api : FrankEnergieApi;
  entry_data : gmap string string;
  site_reference : option string;
  data : option FrankEnergieData;
  api_calls : list ApiCall;
  log : list (LogLevel * string)
}.

(** ** The monad: state is the coordinator, failure is an exception *)

Definition M (A : Type) : Type := Coordinator -> Result A * Coordinator.

Definition ret {A : Type} (a : A) : M A := fun s => (Return a, s).

Definition raise {A : Type} (e : exn) : M A := fun s => (Raise e, s).

Definition bind {A B : Type} (m : M A) (k : A -> M B) : M B :=
  fun s =>
    match m s with
    | (Return a, s') => k a s'
    | (Raise e, s') => (Raise e, s')
    end.

Notation "'let*' x ':=' m 'in' k" := (bind m (fun x => k))
  (at level 10, x name, m at level 100, k at level 200, only parsing).
Notation "m ';;' k" := (bind m (fun _ => k))
  (at level 100, k at level 200, right associativity, only parsing).

(** [try: body / except ...: handler / (code after the statement)].
    [handlers e] is the suite of the first [except] clause that matches
    [e], [None] when no clause does (the exception propagates).  Every
    handler in this file ends in [return] or [raise], so a handler
    yields the function's result; [orelse] is what follows the [try]
    statement when the body finishes.  An exception raised inside a
    handler is not offered to the sibling clauses. *)
Definition try_except {A B : Type}
    (body : M A) (handlers : exn -> option (M B)) (orelse : A -> M B) : M B :=
  fun s =>
    match body s with
    | (Return a, s') => orelse a s'
    | (Raise e, s') =>
        match handlers e with
        | Some h => h s'
        | None => (Raise e, s')
        end
    end.

Definition get {A : Type} (f : Coordinator -> A) : M A :=
  fun s => (Return (f s), s).

Definition LOGGER (lvl : LogLevel) (msg : string) : M unit :=
  fun s =>
    (Return tt,
     mkCoordinator (api s) (entry_data s) (site_reference s) (data s)
                   (api_calls s) (log s ++ [(lvl, msg)])).

(** Awaiting an operation of the client: the call is recorded and the
    oracle's answer becomes a value or a raised exception. *)
Definition await {A : Type} (call : ApiCall) (answer : exn + A) : M A :=
  fun s =>
    (match answer with
     | inl e => Raise e
     | inr a => Return a
     end,
     mkCoordinator (api s) (entry_data s) (site_reference s) (data s)
                   (api_calls s ++ [call]) (log s)).

(** [self.hass.config_entries.async_update_entry(self.entry, data=d)] *)
Definition async_update_entry (d : gmap string string) : M unit :=
  fun s =>
    (Return tt,
     mkCoordinator (api s) d (site_reference s) (data s)
                   (api_calls s) (log s)).

(** ** The coordinator's methods *)

(** [__fetch_prices_with_fallback]: public prices for an anonymous
    client; otherwise the user's prices, with each empty series
    replaced by the public one ([user_prices.gas = public_prices.gas]
    and the same for electricity, on the object [user_prices]
    returned). *)
Definition __fetch_prices_with_fallback (start_date end_date : date)
  : M MarketPrices :=
  let* authenticated := get (fun self => is_authenticated (api self)) in
  if negb authenticated then
    let* self_api := get api in
    await (CallPrices start_date end_date) (prices self_api start_date end_date)
  else
    let* self_api := get api in
    let* site := get site_reference in
    let* user_prices_ :=
      await (CallUserPrices start_date site) (user_prices self_api start_date site) in
    if (0 <? length (all (gas user_prices_)))%nat
       && (0 <? length (all (electricity user_prices_)))%nat
    then ret user_prices_
    else
      let* public_prices :=
        await (CallPrices start_date end_date)
              (prices self_api start_date end_date) in
      let* user_prices_ :=
        if (length (all (gas user_prices_)) =? 0)%nat then
          LOGGER INFO "No gas prices found for user, falling back to public prices";;
          ret (set_gas user_prices_ (gas public_prices))
        else ret user_prices_ in
      let* user_prices_ :=
        if (length (all (electricity user_prices_)) =? 0)%nat then
          LOGGER INFO "No electricity prices found for user, falling back to public prices";;
          ret (set_electricity user_prices_ (electricity public_prices))
        else ret user_prices_ in
      ret user_prices_.

(** [__try_renew_token]: the whole body is one [try] statement with a
    single clause, [except AuthException]. *)
Definition __try_renew_token : M unit :=
  try_except
    (let* self_api := get api in
     let* updated_tokens := await CallRenewToken (renew_token self_api) in
     let data_ : gmap string string :=
       <[CONF_TOKEN := refreshToken updated_tokens]>
         (<[CONF_ACCESS_TOKEN := authToken updated_tokens]> ∅) in
     async_update_entry data_;;
     LOGGER DEBUG "Successfully renewed token")
    (fun ex =>
       match ex with
       | AuthException msg =>
           Some (LOGGER ERROR
                   ("Failed to renew token: " +:+ msg +:+ ". Starting user reauth flow");;
                 raise ConfigEntryAuthFailed)
       | _ => None
       end)
    (fun _ => ret tt).

(** The suite of the [try] statement of [_async_update_data]: the two
    price fetches, the month summary and the invoices. *)
Definition update_try_suite (today tomorrow day_after_tomorrow : date)
  : M (MarketPrices * MarketPrices * option MonthSummary * option Invoices) :=
  let* prices_today := __fetch_prices_with_fallback today tomorrow in
  let* prices_tomorrow :=
    __fetch_prices_with_fallback tomorrow day_after_tomorrow in
  let* data_month_summary :=
    (let* authenticated := get (fun self => is_authenticated (api self)) in
     if authenticated then
       let* self_api := get api in
       let* site := get site_reference in
       let* r := await (CallMonthSummary site) (month_summary self_api site) in
       ret (Some r)
     else ret None) in
  let* data_invoices :=
    (let* authenticated := get (fun self => is_authenticated (api self)) in
     if authenticated then
       let* self_api := get api in
       let* site := get site_reference in
       let* r := await (CallInvoices site) (invoices self_api site) in
       ret (Some r)
     else ret None) in
  ret (prices_today, prices_tomorrow, data_month_summary, data_invoices).

(** The [except] clauses of [_async_update_data], in source order. *)
Definition update_handlers (ex : exn) : option (M FrankEnergieData) :=
  match ex with
  | UpdateFailed msg =>
      Some (let* self_data := get data in
            match self_data with
            | None => raise (TypeError "'NoneType' object is not subscriptable")
            | Some d =>
                if truthy (get_future_prices (DATA_ELECTRICITY d))
                   && truthy (get_future_prices (DATA_GAS d))
                then
                  LOGGER WARNING msg;;
                  ret d
                else raise (UpdateFailed msg)
            end)
  | RequestException msg =>
      Some (if String.prefix "user-error:" msg
            then raise ConfigEntryAuthFailed
            else raise (UpdateFailed msg))
  | AuthException msg =>
      Some (LOGGER DEBUG
              ("Authentication tokens expired, trying to renew them (" +:+ msg +:+ ")");;
            __try_renew_token;;
            raise (UpdateFailed msg))
  | _ => None
  end.

(** The snapshot built after the [try] statement. *)
Definition new_snapshot
    (r : MarketPrices * MarketPrices * option MonthSummary * option Invoices)
  : FrankEnergieData :=
  let '(prices_today, prices_tomorrow, data_month_summary, data_invoices) := r in
  mkFrankEnergieData
    (PriceData_add (electricity prices_today) (electricity prices_tomorrow))
    (PriceData_add (gas prices_today) (gas prices_tomorrow))
    data_month_summary
    data_invoices.

(** [_async_update_data]; [today] is [datetime.utcnow().date()]. *)
Definition _async_update_data (today : date) : M FrankEnergieData :=
  LOGGER DEBUG "Fetching Frank Energie data";;
  let tomorrow := (today + 1)%Z in
  let day_after_tomorrow := (today + 2)%Z in
  try_except
    (update_try_suite today tomorrow day_after_tomorrow)
    update_handlers
    (fun r => ret (new_snapshot r)).

(** [FrankEnergieCoordinator.__init__]: the coordinator built for a
    config entry.  [site_reference] is
    [entry.data.get("site_reference", None)], read once, here; [data]
    starts as [None].  The name and the 60-minute update interval are
    handed to the host's base class and play no part in a cycle. *)
Definition __init__
    (entry_data_ : gmap string string) (api_ : FrankEnergieApi) : Coordinator :=
  mkCoordinator api_ entry_data_ (entry_data_ !! "site_reference") None [] [].

End Coordinator.

Arguments mkPriceData {Price} all.
Arguments all {Price} p.
Arguments PriceData_add {Price} a b.
Arguments mkMarketPrices {Price} electricity gas.
Arguments electricity {Price} m.
Arguments gas {Price} m.
Arguments set_gas {Price} mp g.
Arguments set_electricity {Price} mp e.
Arguments mkFrankEnergieData {Price MonthSummary Invoices} _ _ _ _.
Arguments DATA_ELECTRICITY {Price MonthSummary Invoices} f.
Arguments DATA_GAS {Price MonthSummary Invoices} f.
Arguments DATA_MONTH_SUMMARY {Price MonthSummary Invoices} f.
Arguments DATA_INVOICES {Price MonthSummary Invoices} f.
Arguments mkFrankEnergieApi {Price MonthSummary Invoices} _ _ _ _ _ _.
Arguments is_authenticated {Price MonthSummary Invoices} f.
Arguments prices {Price MonthSummary Invoices} f _ _.
Arguments user_prices {Price MonthSummary Invoices} f _ _.
Arguments month_summary {Price MonthSummary Invoices} f _.
Arguments invoices {Price MonthSummary Invoices} f _.
Arguments renew_token {Price MonthSummary Invoices} f.
Arguments mkCoordinator {Price MonthSummary Invoices} _ _ _ _ _ _.
Arguments api {Price MonthSummary Invoices} c.
Arguments entry_data {Price MonthSummary Invoices} c.
Arguments site_reference {Price MonthSummary Invoices} c.
Arguments data {Price MonthSummary Invoices} c.
Arguments api_calls {Price MonthSummary Invoices} c.
Arguments log {Price MonthSummary Invoices} c.
Arguments ret {Price MonthSummary Invoices A} a _.
Arguments raise {Price MonthSummary Invoices A} e _.
Arguments bind {Price MonthSummary Invoices A B} m k _.
Arguments try_except {Price MonthSummary Invoices A B} body handlers orelse _.
Arguments get {Price MonthSummary Invoices A} f _.
Arguments LOGGER {Price MonthSummary Invoices} lvl msg _.
Arguments await {Price MonthSummary Invoices A} call answer _.
Arguments async_update_entry {Price MonthSummary Invoices} d _.
Arguments __fetch_prices_with_fallback {Price MonthSummary Invoices} start_date end_date _.
Arguments __try_renew_token {Price MonthSummary Invoices} _.
Arguments update_try_suite {Price MonthSummary Invoices} today tomorrow day_after_tomorrow _.
Arguments update_handlers {Price MonthSummary Invoices} get_future_prices ex.
Arguments new_snapshot {Price MonthSummary Invoices} r.
Arguments _async_update_data {Price MonthSummary Invoices} get_future_prices today _.
Arguments __init__ {Price MonthSummary Invoices} entry_data_ api_.

(** ** Observations on a run

    [emit calls logs s] is [s] after [calls] were awaited and [logs]
    were written, nothing else touched. *)

Definition emit {Price MonthSummary Invoices : Type}
    (calls : list ApiCall) (logs : list (LogLevel * string))
    (s : Coordinator Price MonthSummary Invoices)
  : Coordinator Price MonthSummary Invoices :=
  mkCoordinator (api s) (entry_data s) (site_reference s) (data s)
                (api_calls s ++ calls) (log s ++ logs).

(** [emits P m s]: run from [s], or from any coordinator with the same
    client and site, [m] yields the same result and only awaits calls
    satisfying [P] and writes log records. *)
Definition emits {Price MonthSummary Invoices : Type}
    (P : ApiCall -> Prop) {A : Type}
    (m : M Price MonthSummary Invoices A)
    (s : Coordinator Price MonthSummary Invoices) : Prop :=
  exists calls logs,
    Forall P calls /\
    forall s', api s' = api s -> site_reference s' = site_reference s ->
               m s' = (fst (m s), emit calls logs s').

(** [c] asks the client for prices of the window that starts on
    [start_date]; [user_prices] is given the start only, [prices] the
    start and the (exclusive) end. *)
Definition price_call (start_date end_date : date) (c : ApiCall) : Prop :=
  match c with
  | CallPrices a b => a = start_date /\ b = end_date
  | CallUserPrices a _ => a = start_date
  | _ => False
  end.

Definition account_call (c : ApiCall) : Prop :=
  match c with
  | CallMonthSummary _ | CallInvoices _ => True
  | _ => False
  end.

(** The calls a cycle that starts on [today] may make inside its
    [try] suite. *)
Definition cycle_call (today : date) (c : ApiCall) : Prop :=
  price_call today (today + 1)%Z c
  \/ price_call (today + 1)%Z (today + 2)%Z c
  \/ account_call c.

(** [m] awaits at most [n] operations of the client, from whatever
    coordinator it is run. *)
Definition awaits_at_most {Price MonthSummary Invoices : Type}
    (n : nat) {A : Type} (m : M Price MonthSummary Invoices A) : Prop :=
  forall s, (length (api_calls (snd (m s))) <= length (api_calls s) + n)%nat.

(** The cached snapshot still has a future price for electricity and
    for gas: the test of the stale-data handler. *)
Definition has_future_data {Price MonthSummary Invoices : Type}
    (get_future_prices : PriceData Price -> list Price)
    (s : Coordinator Price MonthSummary Invoices) : bool :=
  match data s with
  | Some d =>
      truthy (get_future_prices (DATA_ELECTRICITY d))
      && truthy (get_future_prices (DATA_GAS d))
  | None => false
  end.

(** ** The session around the cycles *)

(** Modelled from the spec: the host's refresh, which is not part of
    this repository, owns the coordinator's [data] (the cached
    snapshot is replaced atomically by each successful cycle, and
    otherwise the old one is retained unchanged): the snapshot a cycle
    returns becomes the cached one, and after a cycle that raises the
    cached one stays. *)
Definition async_refresh {Price MonthSummary Invoices : Type}
    (get_future_prices : PriceData Price -> list Price) (today : date)
    (s : Coordinator Price MonthSummary Invoices)
  : Coordinator Price MonthSummary Invoices :=
  let (r, s') := _async_update_data get_future_prices today s in
  match r with
  | Return d =>
      mkCoordinator (api s') (entry_data s') (site_reference s') (Some d)
                    (api_calls s') (log s')
  | Raise _ => s'
  end.

(** The same coordinator at a later time, when the client gives other
    answers. *)
Definition set_api {Price MonthSummary Invoices : Type}
    (client : FrankEnergieApi Price MonthSummary Invoices)
    (s : Coordinator Price MonthSummary Invoices)
  : Coordinator Price MonthSummary Invoices :=
  mkCoordinator client (entry_data s) (site_reference s) (data s)
                (api_calls s) (log s).

(** The coordinators an unauthenticated session goes through: built by
    [__init__] for a client that is not logged in, then refreshed any
    number of times (the clock, and with it what counts as a future
    price, moves on from one refresh to the next), the client's answers
    changing in between but the client never becoming logged in. *)
Inductive unauthenticated_session {Price MonthSummary Invoices : Type}
  : Coordinator Price MonthSummary Invoices -> Prop :=
| session_built entry client :
    is_authenticated client = false ->
    unauthenticated_session (__init__ entry client)
| session_refreshed get_future_prices today s :
    unauthenticated_session s ->
    unauthenticated_session (async_refresh get_future_prices today s)
| session_answers client s :
    unauthenticated_session s ->
    is_authenticated client = false ->
    unauthenticated_session (set_api client s).

(** ** Concrete clients and coordinators

    Prices are identified by the hour they end in, counted from some
    epoch; at clock [now] the future prices are those ending later. *)

Module Scenario.

Definition future_at (now : Z) (p : PriceData Z) : list Z :=
  filter (fun till => (now <? till)%Z) (all p).

Definition series (l : list Z) : PriceData Z := mkPriceData l.

Definition user_day : MarketPrices Z := mkMarketPrices (series [101; 102]%Z) (series [201]%Z).
Definition user_no_electricity : MarketPrices Z := mkMarketPrices (series []) (series [201]%Z).
Definition user_no_gas : MarketPrices Z := mkMarketPrices (series [101; 102]%Z) (series []).
Definition public_day : MarketPrices Z := mkMarketPrices (series [11; 12]%Z) (series [21]%Z).
Definition public_window (start_date : date) : MarketPrices Z :=
  mkMarketPrices (series [24 * start_date + 1; 24 * start_date + 2]%Z)
                 (series [24 * start_date + 24]%Z).

(** A snapshot cached by an earlier cycle whose last electricity and
    gas entries end after hour 100. *)
Definition cached : FrankEnergieData Z nat nat :=
  mkFrankEnergieData (series [99; 100; 101]%Z) (series [120]%Z) None None.

Definition no_account {A : Type} : option string -> exn + A :=
  fun _ => inl (OtherException "Authentication is required.").

(** Anonymous client, server up. *)
Definition public_api : FrankEnergieApi Z nat nat :=
  mkFrankEnergieApi false
    (fun start_date _ => inr (public_window start_date))
    (fun _ => no_account) no_account no_account
    (inl (AuthException "no refresh token")).

(** Anonymous client, server unreachable. *)
Definition unreachable_api : FrankEnergieApi Z nat nat :=
  mkFrankEnergieApi false
    (fun _ _ => inl (RequestException "Request failed: 503"))
    (fun _ => no_account) no_account no_account
    (inl (AuthException "no refresh token")).

(** Anonymous client, server answers with a user-category error. *)
Definition user_error_api : FrankEnergieApi Z nat nat :=
  mkFrankEnergieApi false
    (fun _ _ => inl (RequestException "user-error:auth-not-authorised"))
    (fun _ => no_account) no_account no_account
    (inl (AuthException "no refresh token")).

(** Logged-in client whose access token has expired; [renewal] is the
    answer of [renew_token()]. *)
Definition expired_api (renewal : exn + Authentication)
  : FrankEnergieApi Z nat nat :=
  mkFrankEnergieApi true
    (fun _ _ => inr public_day)
    (fun _ _ => inl (AuthException "jwt expired"))
    (fun _ => inr 7) (fun _ => inr 3)
    renewal.

(** Logged-in client; [mine] is what [user_prices] answers. *)
Definition account_api (mine : MarketPrices Z)
  : FrankEnergieApi Z nat nat :=
  mkFrankEnergieApi true
    (fun _ _ => inr public_day)
    (fun _ _ => inr mine)
    (fun _ => inr 7) (fun _ => inr 3)
    (inr (mkAuthentication "a1" "r1")).

Definition old_tokens : gmap string string :=
  <[CONF_TOKEN := "r0"]> (<[CONF_ACCESS_TOKEN := "a0"]> ∅).

Definition coordinator
    (a : FrankEnergieApi Z nat nat) (d : option (FrankEnergieData Z nat nat))
  : Coordinator Z nat nat :=
  mkCoordinator a old_tokens (Some "site-1") d [] [].

Definition user_nothing : MarketPrices Z := mkMarketPrices (series []) (series []).

(** Anonymous client whose transport fails with an exception of a
    class the coordinator does not name. *)
Definition timeout_api : FrankEnergieApi Z nat nat :=
  mkFrankEnergieApi false
    (fun _ _ => inl (OtherException "Request failed: timeout"))
    (fun _ => no_account) no_account no_account
    (inl (AuthException "no refresh token")).

(** A client double, as a test would install it, whose [prices] raises
    the host's [UpdateFailed]. *)
Definition update_failed_api : FrankEnergieApi Z nat nat :=
  mkFrankEnergieApi false
    (fun _ _ => inl (UpdateFailed "no data"))
    (fun _ => no_account) no_account no_account
    (inl (AuthException "no refresh token")).

(** The entry as the config flow stored it for site [site-1]. *)
Definition stored_entry : gmap string string :=
  <["site_reference" := "site-1"]> old_tokens.

End Scenario.


(** * Properties *)

Local Open Scope Z_scope.
Local Open Scope list_scope.

Lemma prefix_startswith (p s : string) :
  String.prefix p s = true <-> exists rest, s = p +:+ rest.
Proof.
  revert s. induction p as [|c p IH]; intros s; simpl.
  - split; [intros _; exists s; reflexivity | intros _; now destruct s].
  - destruct s as [|c' s']; simpl.
    + split; [discriminate | intros [rest H]; discriminate].
    + destruct (Ascii.ascii_dec c c') as [->|Hne].
      * rewrite IH. split; intros [rest H]; exists rest.
        -- simpl. now rewrite H.
        -- simpl in H. now inversion H.
      * split; [discriminate | intros [rest H]].
        simpl in H. inversion H. congruence.
Qed.

Section Properties.

Context {Price MonthSummary Invoices : Type}.
Variable get_future_prices : PriceData Price -> list Price.

Abbreviation Coord := (Coordinator Price MonthSummary Invoices).
Abbreviation Mon := (M Price MonthSummary Invoices).

Implicit Types (s : Coord) (today : date) (calls : list ApiCall).

Lemma emit_nil s : emit [] [] s = s.
Proof. destruct s; unfold emit; simpl. now rewrite !app_nil_r. Qed.

Lemma emit_emit c1 l1 c2 l2 s :
  emit c2 l2 (emit c1 l1 s) = emit (c1 ++ c2) (l1 ++ l2) s.
Proof. unfold emit; simpl. now rewrite !app_assoc. Qed.

Lemma emits_run P {A} (m : Mon A) s :
  emits P m s ->
  exists calls logs, Forall P calls /\ m s = (fst (m s), emit calls logs s).
Proof.
  intros (calls & logs & HP & H). exists calls, logs. split; [exact HP|].
  now apply H.
Qed.

Lemma emits_ret P {A} (a : A) s : emits P (ret a) s.
Proof.
  exists [], []. split; [constructor|]. intros s' _ _.
  unfold ret; simpl. now rewrite emit_nil.
Qed.

Lemma emits_raise P {A} e s : emits P (raise (A := A) e) s.
Proof.
  exists [], []. split; [constructor|]. intros s' _ _.
  unfold raise; simpl. now rewrite emit_nil.
Qed.

Lemma emits_LOGGER P lvl msg s : emits P (LOGGER lvl msg) s.
Proof.
  exists [], [(lvl, msg)]. split; [constructor|]. intros s' _ _.
  unfold LOGGER, emit; simpl. now rewrite app_nil_r.
Qed.

Lemma emits_await (P : ApiCall -> Prop) {A} call (answer : exn + A) s :
  P call -> emits P (await call answer) s.
Proof.
  intros HP. exists [call], []. split; [now repeat constructor|]. intros s' _ _.
  unfold await, emit; simpl. now rewrite app_nil_r.
Qed.

Lemma emits_get P {A} (f : Coord -> A) s :
  (forall s', api s' = api s -> site_reference s' = site_reference s -> f s' = f s) ->
  emits P (get f) s.
Proof.
  intros Hf. exists [], []. split; [constructor|]. intros s' Ha Hs.
  unfold get; simpl. now rewrite emit_nil, Hf.
Qed.

Lemma emits_bind P {A B} (m : Mon A) (k : A -> Mon B) s :
  emits P m s ->
  (forall a, fst (m s) = Return a -> emits P (k a) (snd (m s))) ->
  emits P (bind m k) s.
Proof.
  intros (c1 & l1 & F1 & U1) Hk.
  pose proof (U1 s eq_refl eq_refl) as Hs.
  destruct (fst (m s)) as [a|e] eqn:E.
  - destruct (Hk a eq_refl) as (c2 & l2 & F2 & U2).
    rewrite Hs in U2; simpl in U2.
    exists (c1 ++ c2), (l1 ++ l2). split; [now apply Forall_app|].
    intros s' Ha Hsite. unfold bind.
    rewrite (U1 s' Ha Hsite), Hs, (U2 (emit c1 l1 s')), (U2 (emit c1 l1 s)) by easy.
    simpl. now rewrite emit_emit.
  - exists c1, l1. split; [exact F1|]. intros s' Ha Hsite. unfold bind.
    now rewrite (U1 s' Ha Hsite), Hs.
Qed.

Lemma emits_weaken (P Q : ApiCall -> Prop) {A} (m : Mon A) s :
  (forall c, P c -> Q c) -> emits P m s -> emits Q m s.
Proof.
  intros HPQ (calls & logs & F & U). exists calls, logs. split; [|exact U].
  eapply Forall_impl; eauto.
Qed.

Ltac emits_step :=
  first
    [ apply emits_ret
    | apply emits_raise
    | apply emits_LOGGER
    | apply emits_await; unfold cycle_call; simpl; now auto
    | apply emits_get; intros ? ? ?; congruence
    | apply emits_bind; [| intros ? ?]
    | match goal with
      | |- emits _ (if ?b then _ else _) _ => destruct b
      end ].

Lemma emits_fetch start_date end_date s :
  emits (price_call start_date end_date)
        (__fetch_prices_with_fallback start_date end_date) s.
Proof. unfold __fetch_prices_with_fallback. repeat emits_step. Qed.

Lemma emits_suite today s :
  emits (cycle_call today)
        (update_try_suite today (today + 1) (today + 2)) s.
Proof.
  unfold update_try_suite.
  apply emits_bind; [| intros ? ?].
  { eapply emits_weaken; [| apply emits_fetch]. unfold cycle_call; auto. }
  apply emits_bind; [| intros ? ?].
  { eapply emits_weaken; [| apply emits_fetch]. unfold cycle_call; auto. }
  repeat emits_step.
Qed.

Lemma emit_frame {A} (m : Mon A) s calls logs :
  m s = (fst (m s), emit calls logs s) ->
  api_calls (snd (m s)) = api_calls s ++ calls
  /\ data (snd (m s)) = data s
  /\ entry_data (snd (m s)) = entry_data s
  /\ api (snd (m s)) = api s
  /\ site_reference (snd (m s)) = site_reference s.
Proof. intros ->. simpl. auto. Qed.

Lemma bind_Return_inv {A B} (m : Mon A) (k : A -> Mon B) s b :
  fst (bind m k s) = Return b ->
  exists a, fst (m s) = Return a /\ bind m k s = k a (snd (m s)).
Proof.
  unfold bind. destruct (m s) as [[a|e] s']; simpl; [eauto | discriminate].
Qed.

(** The cycle, in terms of what its [try] suite does when run from the
    same coordinator: the first log record changes nothing the suite
    looks at. *)
Lemma cycle_unfold today s :
  exists calls logs,
    Forall (cycle_call today) calls /\
    update_try_suite today (today + 1) (today + 2) s
    = (fst (update_try_suite today (today + 1) (today + 2) s),
       emit calls logs s) /\
    _async_update_data get_future_prices today s
    = let s1 := emit calls ((DEBUG, "Fetching Frank Energie data"%string) :: logs) s in
      match fst (update_try_suite today (today + 1) (today + 2) s) with
      | Return r => (Return (new_snapshot r), s1)
      | Raise e =>
          match update_handlers get_future_prices e with
          | Some h => h s1
          | None => (Raise e, s1)
          end
      end.
Proof.
  destruct (emits_suite today s) as (calls & logs & F & U).
  exists calls, logs. split; [exact F|]. split; [now apply U|].
  unfold _async_update_data, bind at 1. unfold LOGGER at 1.
  unfold try_except.
  rewrite U by reflexivity.
  replace (emit calls logs _)
    with (emit calls ((DEBUG, "Fetching Frank Energie data"%string) :: logs) s)
    by (unfold emit; simpl; now rewrite <- app_assoc).
  simpl. destruct (fst (update_try_suite _ _ _ s)); reflexivity.
Qed.

(** What the [RequestException] clause does with the cycle. *)
Lemma cycle_on_RequestException today s msg :
  fst (update_try_suite today (today + 1) (today + 2) s)
  = Raise (RequestException msg) ->
  fst (_async_update_data get_future_prices today s)
  = (if String.prefix "user-error:" msg
     then Raise ConfigEntryAuthFailed
     else Raise (UpdateFailed msg))
  /\ data (snd (_async_update_data get_future_prices today s)) = data s
  /\ entry_data (snd (_async_update_data get_future_prices today s)) = entry_data s.
Proof.
  intros H. destruct (cycle_unfold today s) as (calls & logs & _ & _ & ->).
  rewrite H. simpl. destruct (String.prefix _ msg); simpl; auto.
Qed.

(** ** The claims about failure handling *)

(** C10.  A request exception raised in the [try] suite ends the cycle
    in [ConfigEntryAuthFailed] exactly when its message starts with the
    literal text [user-error:]; with any other message the cycle ends
    in [UpdateFailed] carrying that message. *)
Theorem request_exception_classified_by_prefix today s msg :
  fst (update_try_suite today (today + 1) (today + 2) s)
  = Raise (RequestException msg) ->
  (fst (_async_update_data get_future_prices today s) = Raise ConfigEntryAuthFailed
   <-> exists rest, msg = ("user-error:" +:+ rest)%string)
  /\ ((~ exists rest, msg = ("user-error:" +:+ rest)%string) ->
      fst (_async_update_data get_future_prices today s) = Raise (UpdateFailed msg)).
Proof.
  intros H. destruct (cycle_on_RequestException today s msg H) as (-> & _).
  rewrite <- prefix_startswith.
  destruct (String.prefix _ msg); split; easy.
Qed.

(** C3.  A request exception tagged [user-error:] always ends the cycle
    in [ConfigEntryAuthFailed]; the cycle returns no snapshot, whatever
    the cached one holds, and leaves the cached one as it was. *)
Theorem user_error_escalates_to_reauth today s msg :
  fst (update_try_suite today (today + 1) (today + 2) s)
  = Raise (RequestException msg) ->
  String.prefix "user-error:" msg = true ->
  fst (_async_update_data get_future_prices today s) = Raise ConfigEntryAuthFailed
  /\ (forall d, fst (_async_update_data get_future_prices today s) <> Return d)
  /\ data (snd (_async_update_data get_future_prices today s)) = data s.
Proof.
  intros H Hp. destruct (cycle_on_RequestException today s msg H) as (E & D & _).
  rewrite Hp in E. rewrite E. repeat split; [discriminate | exact D].
Qed.

(** C4.  When the cached snapshot lacks a future price for electricity
    or for gas (or there is no cached snapshot), a request exception
    that is not tagged [user-error:] leaves the cycle as
    [UpdateFailed]: no snapshot is returned. *)
Theorem generic_failure_without_future_data_propagates today s msg :
  has_future_data get_future_prices s = false ->
  fst (update_try_suite today (today + 1) (today + 2) s)
  = Raise (RequestException msg) ->
  String.prefix "user-error:" msg = false ->
  fst (_async_update_data get_future_prices today s) = Raise (UpdateFailed msg)
  /\ data (snd (_async_update_data get_future_prices today s)) = data s.
Proof.
  intros _ H Hp. destruct (cycle_on_RequestException today s msg H) as (E & D & _).
  rewrite Hp in E. now rewrite E.
Qed.

(** C5.  A cycle never changes the cached snapshot itself, and what it
    hands back is one of: an exception; the cached snapshot, as it is;
    or the snapshot built from the four results of a [try] suite that
    ran to its end (both price windows, month summary, invoices). *)
Theorem snapshot_replaced_whole_or_kept today s :
  data (snd (_async_update_data get_future_prices today s)) = data s
  /\ match fst (_async_update_data get_future_prices today s) with
     | Raise _ => True
     | Return d =>
         data s = Some d
         \/ exists prices_today prices_tomorrow data_month_summary data_invoices,
              fst (update_try_suite today (today + 1) (today + 2) s)
              = Return (prices_today, prices_tomorrow,
                        data_month_summary, data_invoices)
              /\ d = mkFrankEnergieData
                       (PriceData_add (electricity prices_today)
                                      (electricity prices_tomorrow))
                       (PriceData_add (gas prices_today) (gas prices_tomorrow))
                       data_month_summary data_invoices
     end.
Proof.
  destruct (cycle_unfold today s) as (calls & logs & _ & _ & ->).
  destruct (fst (update_try_suite _ _ _ s)) as [[[[p1 p2] ms] inv]|e]; simpl.
  - split; [reflexivity|]. right. now exists p1, p2, ms, inv.
  - destruct e as [msg|msg|msg| |msg|msg]; simpl; auto.
    + destruct (String.prefix _ msg); simpl; auto.
    + unfold bind, LOGGER, __try_renew_token, try_except, bind, get, await,
        async_update_entry, raise; simpl.
      destruct (renew_token (api s)) as [[]|tokens]; simpl; auto.
    + unfold bind, get; simpl. destruct (data s) as [d|] eqn:Hd; simpl; auto.
      destruct (truthy _ && truthy _); simpl; auto.
Qed.

(** C2.  When the [try] suite raises an auth exception the cycle
    awaits [renew_token()] once, after the suite's own calls, and then
    ends by raising, which is a failed refresh for the host, whatever
    the renewal did; no snapshot is returned and the cached one is
    left as it was.  The exception that ends the cycle is
    [UpdateFailed] after a renewal that answered (the new token pair
    has then replaced the entry's data), [ConfigEntryAuthFailed], which
    also starts the reauthentication flow, after a renewal refused with
    an auth exception, and the renewal's own exception otherwise; in
    the last two cases the entry is left alone. *)
Theorem auth_expiry_renews_then_fails today s msg :
  fst (update_try_suite today (today + 1) (today + 2) s)
  = Raise (AuthException msg) ->
  let r := _async_update_data get_future_prices today s in
  (exists calls,
      Forall (cycle_call today) calls
      /\ api_calls (snd r) = api_calls s ++ calls ++ [CallRenewToken])
  /\ (exists e, fst r = Raise e)
  /\ data (snd r) = data s
  /\ (forall tokens,
        renew_token (api s) = inr tokens ->
        fst r = Raise (UpdateFailed msg)
        /\ entry_data (snd r)
           = <[CONF_TOKEN := refreshToken tokens]>
               (<[CONF_ACCESS_TOKEN := authToken tokens]> ∅))
  /\ (forall why,
        renew_token (api s) = inl (AuthException why) ->
        fst r = Raise ConfigEntryAuthFailed
        /\ entry_data (snd r) = entry_data s)
  /\ (forall e,
        renew_token (api s) = inl e ->
        (forall why, e <> AuthException why) ->
        fst r = Raise e /\ entry_data (snd r) = entry_data s).
Proof.
  intros H r. subst r.
  destruct (cycle_unfold today s) as (calls & logs & F & _ & ->).
  rewrite H. simpl.
  unfold bind, LOGGER, __try_renew_token, try_except, bind, get, await,
    async_update_entry, raise; simpl.
  split; [exists calls; split; [exact F|]|].
  - destruct (renew_token (api s)) as [[]|tokens]; simpl;
      now rewrite <- app_assoc.
  - split; [destruct (renew_token (api s)) as [[]|tokens]; simpl; eauto|].
    split; [destruct (renew_token (api s)) as [[]|tokens]; reflexivity|].
    split; [intros tokens Ht; now rewrite Ht|].
    split; [intros why Ht; now rewrite Ht|].
    intros e Ht He. rewrite Ht.
    destruct e as [m|m|m| |m|m]; simpl; auto. now destruct (He m).
Qed.

(** ** The claims about the price fetch *)

(** C9.  With a logged-in client whose user prices hold at least one
    gas entry and one electricity entry, the fetch returns exactly
    those user prices, and the only operation awaited is
    [user_prices]: [prices] is not called. *)
Theorem user_prices_returned_as_is start_date end_date s user :
  is_authenticated (api s) = true ->
  user_prices (api s) start_date (site_reference s) = inr user ->
  all (gas user) <> [] ->
  all (electricity user) <> [] ->
  __fetch_prices_with_fallback start_date end_date s
  = (Return user, emit [CallUserPrices start_date (site_reference s)] [] s).
Proof.
  intros Ha Hu Hg He.
  unfold __fetch_prices_with_fallback, bind, get, await, ret; simpl.
  rewrite Ha; simpl. rewrite Hu; simpl.
  destruct (all (gas user)); [contradiction|].
  destruct (all (electricity user)); [contradiction|]. simpl.
  unfold emit. now rewrite app_nil_r.
Qed.

(** C6.  With a logged-in client, an empty user series is replaced by
    the public series of the same commodity and the other, non-empty
    user series is kept: empty electricity and non-empty gas give
    (public electricity, user gas); empty gas and non-empty electricity
    give (user electricity, public gas). *)
Theorem fallback_is_per_commodity start_date end_date s user public :
  is_authenticated (api s) = true ->
  user_prices (api s) start_date (site_reference s) = inr user ->
  prices (api s) start_date end_date = inr public ->
  (all (electricity user) = [] -> all (gas user) <> [] ->
   fst (__fetch_prices_with_fallback start_date end_date s)
   = Return (mkMarketPrices (electricity public) (gas user)))
  /\ (all (gas user) = [] -> all (electricity user) <> [] ->
      fst (__fetch_prices_with_fallback start_date end_date s)
      = Return (mkMarketPrices (electricity user) (gas public))).
Proof.
  intros Ha Hu Hp.
  unfold __fetch_prices_with_fallback, bind, get, await, ret, LOGGER,
    set_gas, set_electricity; simpl.
  rewrite Ha; simpl. rewrite Hu; simpl. split.
  - intros He Hg. destruct (all (gas user)) eqn:Eg; [contradiction|].
    rewrite He; simpl. rewrite Hp; simpl. rewrite ?Eg, ?He. reflexivity.
  - intros Hg He. destruct (all (electricity user)) eqn:Ee; [contradiction|].
    rewrite Hg; simpl. rewrite Hp; simpl. rewrite ?Hg, ?Ee. reflexivity.
Qed.

(** Every path through the fetch awaits at least one operation. *)
Lemma fetch_awaits start_date end_date s :
  (length (api_calls s)
   < length (api_calls (snd (__fetch_prices_with_fallback start_date end_date s))))%nat.
Proof.
  unfold __fetch_prices_with_fallback, bind, get, await, ret, LOGGER,
    set_gas, set_electricity; simpl.
  destruct (is_authenticated (api s)); simpl.
  - destruct (user_prices (api s) start_date (site_reference s)) as [e|u]; simpl.
    + rewrite length_app; simpl; lia.
    + destruct (all (gas u)) eqn:Eg; simpl;
        destruct (all (electricity u)) eqn:Ee; simpl;
        destruct (prices (api s) start_date end_date); simpl;
        rewrite ?Ee; simpl; rewrite ?length_app; simpl; lia.
  - rewrite length_app; simpl; lia.
Qed.

Lemma fetch_run start_date end_date s :
  exists calls logs,
    calls <> []
    /\ Forall (price_call start_date end_date) calls
    /\ forall s', api s' = api s -> site_reference s' = site_reference s ->
         __fetch_prices_with_fallback start_date end_date s'
         = (fst (__fetch_prices_with_fallback start_date end_date s),
            emit calls logs s').
Proof.
  destruct (emits_fetch start_date end_date s) as (calls & logs & F & U).
  exists calls, logs. split; [|split; [exact F | exact U]].
  intros ->. pose proof (fetch_awaits start_date end_date s) as Hlt.
  rewrite (U s eq_refl eq_refl) in Hlt. simpl in Hlt.
  rewrite app_nil_r in Hlt. lia.
Qed.

(** A [try] suite that ran to its end: both fetches returned, the first
    for [today, today + 1), the second for [today + 1, today + 2). *)
Lemma suite_success_inv today s p1 p2 ms inv :
  fst (update_try_suite today (today + 1) (today + 2) s)
  = Return (p1, p2, ms, inv) ->
  exists c1 c2 c3 logs,
    fst (__fetch_prices_with_fallback today (today + 1) s) = Return p1
    /\ fst (__fetch_prices_with_fallback (today + 1) (today + 2) s) = Return p2
    /\ c1 <> [] /\ Forall (price_call today (today + 1)) c1
    /\ c2 <> [] /\ Forall (price_call (today + 1) (today + 2)) c2
    /\ Forall account_call c3
    /\ snd (update_try_suite today (today + 1) (today + 2) s)
       = emit (c1 ++ c2 ++ c3) logs s.
Proof.
  intros H. unfold update_try_suite in H |- *.
  destruct (fetch_run today (today + 1) s) as (c1 & l1 & N1 & F1 & U1).
  destruct (fetch_run (today + 1) (today + 2) s) as (c2 & l2 & N2 & F2 & U2).
  apply bind_Return_inv in H as H'. destruct H' as (q1 & E1 & R1).
  rewrite R1 in H |- *. clear R1.
  rewrite (U1 s eq_refl eq_refl) in H |- *. simpl in H |- *.
  apply bind_Return_inv in H as H'. destruct H' as (q2 & E2 & R2).
  rewrite R2 in H |- *. clear R2.
  rewrite (U2 (emit c1 l1 s) eq_refl eq_refl) in H, E2 |- *. simpl in H, E2 |- *.
  match type of H with
  | fst (?k ?st) = _ =>
      assert (Hk : emits account_call k st) by repeat emits_step
  end.
  apply emits_run in Hk as (c3 & l3 & F3 & U3).
  rewrite U3 in H |- *. simpl in H |- *.
  exists c1, c2, c3, (l1 ++ l2 ++ l3).
  assert (q1 = p1 /\ q2 = p2) as [-> ->].
  { revert H. unfold bind, get, await, ret. simpl.
    repeat (case_match; simpl; try discriminate); intros [= ? ?]; auto. }
  rewrite !emit_emit, <- ?app_assoc. now repeat split.
Qed.

Lemma Forall_nonempty_Exists {A} (P : A -> Prop) (l : list A) :
  l <> [] -> Forall P l -> Exists P l.
Proof.
  destruct l as [|x l]; [contradiction|].
  intros _ F. apply Exists_cons_hd. now inversion F.
Qed.

(** C8.  When the [try] suite of a cycle that starts on [today] runs to
    its end, its two price results are those of the fetch for
    [today, today + 1) and of the fetch for [today + 1, today + 2); the
    cycle returns a snapshot whose electricity entries are the first
    window's followed by the second window's, and likewise for gas; and
    every price operation awaited is for one of these two windows, each
    of which is asked for. *)
Theorem successful_cycle_concatenates_two_windows today s p1 p2 ms inv :
  fst (update_try_suite today (today + 1) (today + 2) s)
  = Return (p1, p2, ms, inv) ->
  let r := _async_update_data get_future_prices today s in
  fst (__fetch_prices_with_fallback today (today + 1) s) = Return p1
  /\ fst (__fetch_prices_with_fallback (today + 1) (today + 2) s) = Return p2
  /\ (exists d,
        fst r = Return d
        /\ all (DATA_ELECTRICITY d) = all (electricity p1) ++ all (electricity p2)
        /\ all (DATA_GAS d) = all (gas p1) ++ all (gas p2))
  /\ (exists calls,
        api_calls (snd r) = api_calls s ++ calls
        /\ Forall (cycle_call today) calls
        /\ Exists (price_call today (today + 1)) calls
        /\ Exists (price_call (today + 1) (today + 2)) calls).
Proof.
  intros H r. subst r.
  destruct (suite_success_inv _ _ _ _ _ _ H)
    as (c1 & c2 & c3 & logs & E1 & E2 & N1 & F1 & N2 & F2 & F3 & S).
  destruct (cycle_unfold today s) as (calls & logs' & F & Hs & ->).
  assert (calls = c1 ++ c2 ++ c3) as ->.
  { rewrite Hs in S. simpl in S.
    apply (f_equal api_calls) in S. simpl in S.
    now apply app_inv_head in S. }
  rewrite H. simpl.
  split; [exact E1|]. split; [exact E2|]. split.
  - eexists. split; [reflexivity|]. simpl. auto.
  - exists (c1 ++ c2 ++ c3). split; [reflexivity|]. split; [exact F|]. split.
    + apply Exists_app. left. now apply Forall_nonempty_Exists.
    + apply Exists_app. right. apply Exists_app. left.
      now apply Forall_nonempty_Exists.
Qed.

(** The [try] suite of an anonymous client: two awaits of [prices]. *)
Lemma suite_unauthenticated today tomorrow day_after_tomorrow s :
  is_authenticated (api s) = false ->
  update_try_suite today tomorrow day_after_tomorrow s
  = match prices (api s) today tomorrow with
    | inl e => (Raise e, emit [CallPrices today tomorrow] [] s)
    | inr p1 =>
        match prices (api s) tomorrow day_after_tomorrow with
        | inl e =>
            (Raise e,
             emit [CallPrices today tomorrow;
                   CallPrices tomorrow day_after_tomorrow] [] s)
        | inr p2 =>
            (Return (p1, p2, None, None),
             emit [CallPrices today tomorrow;
                   CallPrices tomorrow day_after_tomorrow] [] s)
        end
    end.
Proof.
  intros Ha.
  unfold update_try_suite, __fetch_prices_with_fallback, bind, get, await, ret.
  simpl. rewrite Ha. simpl.
  destruct (prices (api s) today tomorrow) as [e|p1]; simpl.
  - unfold emit. now rewrite app_nil_r.
  - rewrite Ha. simpl.
    destruct (prices (api s) tomorrow day_after_tomorrow) as [e|p2]; simpl;
      repeat (rewrite Ha; simpl); unfold emit;
      now rewrite app_nil_r, <- app_assoc.
Qed.

(** What a handler of the cycle can add to the calls, and where a
    snapshot it returns comes from. *)
Lemma handler_run e h s :
  update_handlers get_future_prices e = Some h ->
  (api_calls (snd (h s)) = api_calls s
   \/ api_calls (snd (h s)) = api_calls s ++ [CallRenewToken])
  /\ (forall d, fst (h s) = Return d -> data s = Some d).
Proof.
  destruct e as [msg|msg|msg| |msg|msg]; simpl; intros [= <-].
  - destruct (String.prefix _ msg); simpl; split; auto; discriminate.
  - unfold bind, LOGGER, __try_renew_token, try_except, bind, get, await,
      async_update_entry, raise; simpl.
    destruct (renew_token (api s)) as [[]|tokens]; simpl; split; auto;
      discriminate.
  - unfold bind, get; simpl. destruct (data s) as [d|]; simpl.
    + destruct (truthy _ && truthy _); simpl; split; auto; try discriminate.
      now intros d' [= ->].
    + split; auto; discriminate.
Qed.

(** One cycle of an anonymous client: if the cached snapshot, when
    there is one, carries no month summary and no invoices, neither
    does the snapshot the cycle returns. *)
Lemma unauthenticated_cycle_step today s :
  is_authenticated (api s) = false ->
  (forall d, data s = Some d ->
             DATA_MONTH_SUMMARY d = None /\ DATA_INVOICES d = None) ->
  let r := _async_update_data get_future_prices today s in
  (forall d, fst r = Return d ->
             DATA_MONTH_SUMMARY d = None /\ DATA_INVOICES d = None)
  /\ (exists calls,
        api_calls (snd r) = api_calls s ++ calls
        /\ Forall (fun c => c = CallPrices today (today + 1)
                            \/ c = CallPrices (today + 1) (today + 2)
                            \/ c = CallRenewToken) calls).
Proof.
  intros Ha Hc r. subst r.
  destruct (cycle_unfold today s) as (calls & logs & _ & Hs & ->).
  rewrite (suite_unauthenticated _ _ _ _ Ha) in Hs |- *.
  assert (Hcalls : Forall (fun c => c = CallPrices today (today + 1)
                                    \/ c = CallPrices (today + 1) (today + 2)
                                    \/ c = CallRenewToken) calls).
  { destruct (prices (api s) today (today + 1));
      [| destruct (prices (api s) (today + 1) (today + 2))];
      apply (f_equal (fun x => api_calls (snd x))) in Hs;
      simpl in Hs; apply app_inv_head in Hs; subst calls;
      repeat (constructor; [now auto|]); constructor. }
  set (s1 := emit calls _ s).
  assert (Hraise : forall e,
    let r := match update_handlers get_future_prices e with
             | Some h => h s1
             | None => (Raise e, s1)
             end in
    (forall d, fst r = Return d ->
               DATA_MONTH_SUMMARY d = None /\ DATA_INVOICES d = None)
    /\ exists calls', api_calls (snd r) = api_calls s ++ calls'
       /\ Forall (fun c => c = CallPrices today (today + 1)
                           \/ c = CallPrices (today + 1) (today + 2)
                           \/ c = CallRenewToken) calls').
  { intros e. destruct (update_handlers get_future_prices e) as [h|] eqn:Eh; simpl.
    - destruct (handler_run e h s1 Eh) as ([Hk|Hk] & Hd).
      + split; [intros d Hr; apply Hc; now apply Hd in Hr|].
        exists calls. now rewrite Hk.
      + split; [intros d Hr; apply Hc; now apply Hd in Hr|].
        exists (calls ++ [CallRenewToken]). rewrite Hk. simpl.
        split; [now rewrite app_assoc|].
        apply Forall_app. split; [exact Hcalls|].
        constructor; [now auto | constructor].
    - split; [discriminate|]. now exists calls. }
  destruct (prices (api s) today (today + 1)) as [e|q1]; simpl; [apply Hraise|].
  destruct (prices (api s) (today + 1) (today + 2)) as [e|q2]; simpl;
    [apply Hraise|].
  split; [now intros d [= <-]|]. now exists calls.
Qed.

Ltac failure_point :=
  split;
  [ intros H; try discriminate H; injection H as <-; eauto 12
  | intros H;
    repeat match goal with
           | H : _ \/ _ |- _ => destruct H
           | H : _ /\ _ |- _ => destruct H
           | H : exists _, _ |- _ => destruct H
           end;
    congruence ].

(** X14.  Where the [try] suite can fail: it raises [e] exactly when the
    first operation that fails raises [e], be it in the fetch of the
    first window, in the fetch of the second, in [month_summary] or in
    [invoices] (the last two are awaited by a logged-in client only). *)
Lemma suite_failure_points today s e :
  fst (update_try_suite today (today + 1) (today + 2) s) = Raise e
  <-> fst (__fetch_prices_with_fallback today (today + 1) s) = Raise e
      \/ (exists p1,
            fst (__fetch_prices_with_fallback today (today + 1) s) = Return p1
            /\ fst (__fetch_prices_with_fallback (today + 1) (today + 2) s)
               = Raise e)
      \/ (exists p1 p2,
            fst (__fetch_prices_with_fallback today (today + 1) s) = Return p1
            /\ fst (__fetch_prices_with_fallback (today + 1) (today + 2) s)
               = Return p2
            /\ is_authenticated (api s) = true
            /\ (month_summary (api s) (site_reference s) = inl e
                \/ exists ms,
                     month_summary (api s) (site_reference s) = inr ms
                     /\ invoices (api s) (site_reference s) = inl e)).
Proof.
  unfold update_try_suite.
  destruct (fetch_run today (today + 1) s) as (c1 & l1 & _ & _ & U1).
  destruct (fetch_run (today + 1) (today + 2) s) as (c2 & l2 & _ & _ & U2).
  unfold bind at 1. rewrite (U1 s eq_refl eq_refl).
  destruct (fst (__fetch_prices_with_fallback today (today + 1) s))
    as [p1|e1]; simpl; [|failure_point].
  unfold bind at 1. rewrite (U2 (emit c1 l1 s) eq_refl eq_refl).
  destruct (fst (__fetch_prices_with_fallback (today + 1) (today + 2) s))
    as [p2|e2]; simpl; [|failure_point].
  unfold bind, get, await, ret; simpl.
  destruct (is_authenticated (api s)) eqn:Ha; simpl;
    repeat (rewrite Ha; simpl); [|failure_point].
  destruct (month_summary (api s) (site_reference s)) as [em|ms]; simpl;
    repeat (rewrite Ha; simpl); [failure_point|].
  destruct (invoices (api s) (site_reference s)) as [ei|inv]; simpl;
    failure_point.
Qed.

(** ** The stale-data clause

    The [except UpdateFailed] clause does hand back the cached snapshot
    when that snapshot has future prices for both commodities, but only
    for an [UpdateFailed] raised inside the [try] suite.  A request
    exception is turned into [UpdateFailed] by a sibling clause, after
    the [try] statement has already chosen its handler, so it never
    reaches the stale-data clause. *)

Lemma stale_clause_returns_cached today s msg :
  fst (update_try_suite today (today + 1) (today + 2) s)
  = Raise (UpdateFailed msg) ->
  has_future_data get_future_prices s = true ->
  exists d, data s = Some d
            /\ fst (_async_update_data get_future_prices today s) = Return d.
Proof.
  intros H Hf. destruct (cycle_unfold today s) as (calls & logs & _ & _ & ->).
  rewrite H. unfold has_future_data in Hf. simpl. unfold bind, get; simpl.
  destruct (data s) as [d|]; [|discriminate]. exists d. simpl.
  now rewrite Hf.
Qed.

Lemma request_failure_never_served_from_cache today s msg d :
  fst (update_try_suite today (today + 1) (today + 2) s)
  = Raise (RequestException msg) ->
  fst (_async_update_data get_future_prices today s) <> Return d.
Proof.
  intros H. destruct (cycle_on_RequestException today s msg H) as (-> & _).
  destruct (String.prefix _ msg); discriminate.
Qed.

(** ** Further properties of the price fetch *)

Ltac fetch_cases s start_date end_date :=
  unfold __fetch_prices_with_fallback, bind, get, await, ret, LOGGER,
    set_gas, set_electricity; simpl;
  destruct (is_authenticated (api s)) eqn:Ha; simpl;
  [ destruct (user_prices (api s) start_date (site_reference s))
      as [eu|u] eqn:Hu; simpl;
    [ | destruct (all (gas u)) as [|g gs] eqn:Hg; simpl;
        destruct (all (electricity u)) as [|el els] eqn:He; simpl;
        destruct (prices (api s) start_date end_date) as [ep|public] eqn:Hp;
        simpl; rewrite ?He; simpl ]
  | destruct (prices (api s) start_date end_date) as [ep|public] eqn:Hp;
    simpl ].

(** X1.  The operations one fetch awaits, in order: an anonymous
    client is asked for [prices] once; a logged-in client is asked for
    [user_prices] first and for [prices] after it only when
    [user_prices] answered with an empty gas or electricity series. *)
Theorem fetch_call_trace start_date end_date s :
  api_calls (snd (__fetch_prices_with_fallback start_date end_date s))
  = api_calls s ++
    (if is_authenticated (api s) then
       CallUserPrices start_date (site_reference s)
       :: match user_prices (api s) start_date (site_reference s) with
          | inr user =>
              if truthy (all (gas user)) && truthy (all (electricity user))
              then []
              else [CallPrices start_date end_date]
          | inl _ => []
          end
     else [CallPrices start_date end_date]).
Proof.
  fetch_cases s start_date end_date; rewrite ?Hg, ?He; simpl;
    now rewrite <- ?app_assoc.
Qed.

(** X2.  When a fetch fails: it raises [e] exactly when [prices]
    raises [e] for an anonymous client, or [user_prices] raises [e] for
    a logged-in one, or [user_prices] answers with an empty series and
    the [prices] call that follows raises [e].  A failure of
    [user_prices] is not made up for with public prices. *)
Theorem fetch_failure_points start_date end_date s e :
  fst (__fetch_prices_with_fallback start_date end_date s) = Raise e
  <-> (is_authenticated (api s) = false
       /\ prices (api s) start_date end_date = inl e)
      \/ (is_authenticated (api s) = true
          /\ user_prices (api s) start_date (site_reference s) = inl e)
      \/ (is_authenticated (api s) = true
          /\ exists user,
               user_prices (api s) start_date (site_reference s) = inr user
               /\ (all (gas user) = [] \/ all (electricity user) = [])
               /\ prices (api s) start_date end_date = inl e).
Proof.
  fetch_cases s start_date end_date;
    (split;
     [ intros H; first [discriminate H | injection H as <-; now eauto 8]
     | intros H; decompose [or and ex] H; congruence ]).
Qed.

(** X3.  Where the series of a logged-in client's result come from: a
    user series that is not empty is kept as it is, and an empty one
    is the public series of the same commodity (both, when both are
    empty). *)
Theorem fetch_series_provenance start_date end_date s user result :
  is_authenticated (api s) = true ->
  user_prices (api s) start_date (site_reference s) = inr user ->
  fst (__fetch_prices_with_fallback start_date end_date s) = Return result ->
  (all (gas user) <> [] -> gas result = gas user)
  /\ (all (electricity user) <> [] -> electricity result = electricity user)
  /\ (all (gas user) = [] ->
      exists public, prices (api s) start_date end_date = inr public
                     /\ gas result = gas public)
  /\ (all (electricity user) = [] ->
      exists public, prices (api s) start_date end_date = inr public
                     /\ electricity result = electricity public).
Proof.
  intros Hauth Huser.
  fetch_cases s start_date end_date; try discriminate;
    injection Huser as <-; intros [= <-]; simpl;
    rewrite ?Hg, ?He; repeat split; intros; try congruence; eauto.
Qed.

(** X4.  If the public price list of the window, whenever it can be
    had, has gas and electricity entries, then no fetch that returns
    hands back an empty series, logged in or not. *)
Theorem fetch_result_complete start_date end_date s result :
  (forall public,
     prices (api s) start_date end_date = inr public ->
     all (gas public) <> [] /\ all (electricity public) <> []) ->
  fst (__fetch_prices_with_fallback start_date end_date s) = Return result ->
  all (gas result) <> [] /\ all (electricity result) <> [].
Proof.
  intros Hpub.
  fetch_cases s start_date end_date; intros [= <-]; simpl;
    try (destruct (Hpub _ eq_refl) as [Pg Pe]);
    rewrite ?Hg, ?He; split; try assumption; discriminate.
Qed.

(** ** Further properties of the token renewal *)

(** X5.  After a renewal that the client answers, the entry can be
    read back: [CONF_ACCESS_TOKEN] holds the new access token,
    [CONF_TOKEN] the new refresh token, and no other key is left in
    the entry. *)
Theorem renewal_persists_token_pair s tokens :
  renew_token (api s) = inr tokens ->
  let r := __try_renew_token s in
  fst r = Return tt
  /\ entry_data (snd r) !! CONF_ACCESS_TOKEN = Some (authToken tokens)
  /\ entry_data (snd r) !! CONF_TOKEN = Some (refreshToken tokens)
  /\ (forall key : string,
        key <> CONF_ACCESS_TOKEN -> key <> CONF_TOKEN ->
        entry_data (snd r) !! key = None).
Proof.
  intros H r. subst r.
  unfold __try_renew_token, try_except, bind, get, await, async_update_entry,
    LOGGER, ret; simpl.
  rewrite H; simpl. split; [reflexivity|]. split; [|split].
  - rewrite lookup_insert_ne by discriminate. apply lookup_insert_eq.
  - apply lookup_insert_eq.
  - intros key Ha Ht.
    rewrite !lookup_insert_ne by congruence. apply lookup_empty.
Qed.

(** X6.  The renewal never lets an auth exception out (it leaves as
    [ConfigEntryAuthFailed]), and unless the renewal returns, the entry
    is exactly what it was. *)
Theorem renewal_failure_leaves_entry s :
  let r := __try_renew_token s in
  (forall msg, fst r <> Raise (AuthException msg))
  /\ (fst r <> Return tt -> entry_data (snd r) = entry_data s)
  /\ (forall e, renew_token (api s) = inl e ->
                fst r = Raise (match e with
                               | AuthException _ => ConfigEntryAuthFailed
                               | _ => e
                               end)).
Proof.
  intros r. subst r.
  unfold __try_renew_token, try_except, bind, get, await, async_update_entry,
    LOGGER, ret, raise; simpl.
  destruct (renew_token (api s)) as [[]|tokens]; simpl;
    (split; [discriminate|]); (split; [easy|]); now intros e [= <-].
Qed.

(** X7.  The renewed entry no longer names the site: a coordinator
    built from it by [__init__] has no site reference, whatever site
    the running coordinator, which keeps its own, was built for. *)
Theorem coordinator_rebuilt_after_renewal_has_no_site s tokens :
  renew_token (api s) = inr tokens ->
  let s' := snd (__try_renew_token s) in
  site_reference s' = site_reference s
  /\ site_reference (__init__ (entry_data s') (api s')) = None.
Proof.
  intros H s'. subst s'.
  unfold __try_renew_token, try_except, bind, get, await, async_update_entry,
    LOGGER, ret, __init__; simpl.
  rewrite H; simpl. split; [reflexivity|].
  rewrite !lookup_insert_ne by discriminate. apply lookup_empty.
Qed.

(** ** Further properties of the cycle *)

(** X8.  When the renewal that follows an auth exception fails with an
    exception that is not an auth exception, that exception leaves the
    cycle as it is: it is neither turned into [UpdateFailed] nor into
    [ConfigEntryAuthFailed], and the entry is untouched. *)
Theorem renewal_error_leaves_cycle_unclassified today s msg e :
  fst (update_try_suite today (today + 1) (today + 2) s)
  = Raise (AuthException msg) ->
  renew_token (api s) = inl e ->
  (forall why, e <> AuthException why) ->
  let r := _async_update_data get_future_prices today s in
  fst r = Raise e /\ entry_data (snd r) = entry_data s /\ data (snd r) = data s.
Proof.
  intros H Hr He r. subst r.
  destruct (cycle_unfold today s) as (calls & logs & _ & _ & ->).
  rewrite H. simpl.
  unfold bind, LOGGER, __try_renew_token, try_except, bind, get, await,
    async_update_entry, raise; simpl.
  rewrite Hr. destruct e as [m|m|m| |m|m]; simpl; auto. now destruct (He m).
Qed.

(** X9.  An exception of a class that no [except] clause names
    leaves the cycle unchanged; no renewal is attempted and neither
    the entry nor the cached snapshot is touched. *)
Theorem unnamed_exception_propagates today s e :
  fst (update_try_suite today (today + 1) (today + 2) s) = Raise e ->
  match e with
  | UpdateFailed _ | RequestException _ | AuthException _ => False
  | _ => True
  end ->
  let r := _async_update_data get_future_prices today s in
  fst r = Raise e
  /\ api_calls (snd r)
     = api_calls (snd (update_try_suite today (today + 1) (today + 2) s))
  /\ entry_data (snd r) = entry_data s
  /\ data (snd r) = data s.
Proof.
  intros H He r. subst r.
  destruct (cycle_unfold today s) as (calls & logs & _ & Hs & ->).
  rewrite Hs, H. simpl. destruct e; simpl; auto; contradiction.
Qed.

(** X10.  The operations of a whole cycle, whatever its outcome:
    price operations for its two windows and the two account
    operations, followed by [renew_token], once, when and only when
    the [try] suite raised an auth exception. *)
Theorem cycle_call_trace today s :
  exists calls,
    Forall (cycle_call today) calls
    /\ api_calls (snd (_async_update_data get_future_prices today s))
       = api_calls s ++ calls
         ++ match fst (update_try_suite today (today + 1) (today + 2) s) with
            | Raise (AuthException _) => [CallRenewToken]
            | _ => []
            end.
Proof.
  destruct (cycle_unfold today s) as (calls & logs & F & _ & ->).
  exists calls. split; [exact F|].
  destruct (fst (update_try_suite _ _ _ s)) as [r|e]; simpl;
    [now rewrite app_nil_r|].
  destruct e as [msg|msg|msg| |msg|msg]; simpl; rewrite ?app_nil_r; auto.
  - now destruct (String.prefix _ msg).
  - unfold bind, LOGGER, __try_renew_token, try_except, bind, get, await,
      async_update_entry, raise; simpl.
    destruct (renew_token (api s)) as [[]|tokens]; simpl;
      now rewrite <- app_assoc.
  - unfold bind, get; simpl. destruct (data s) as [d|]; simpl; auto.
    now destruct (truthy _ && truthy _).
Qed.

(** X11.  A cycle rewrites the entry only by a renewal that the client
    answered after an auth exception; in every other cycle the stored
    tokens are what they were. *)
Theorem entry_changes_only_by_renewal today s :
  entry_data (snd (_async_update_data get_future_prices today s))
  <> entry_data s ->
  exists msg tokens,
    fst (update_try_suite today (today + 1) (today + 2) s)
    = Raise (AuthException msg)
    /\ renew_token (api s) = inr tokens.
Proof.
  destruct (cycle_unfold today s) as (calls & logs & _ & _ & ->).
  destruct (fst (update_try_suite _ _ _ s)) as [r|e]; simpl; [easy|].
  destruct e as [msg|msg|msg| |msg|msg]; simpl; try easy.
  - now destruct (String.prefix _ msg).
  - unfold bind, LOGGER, __try_renew_token, try_except, bind, get, await,
      async_update_entry, raise; simpl.
    destruct (renew_token (api s)) as [[]|tokens]; simpl; try easy.
    intros _. now exists msg, tokens.
  - unfold bind, get; simpl. destruct (data s) as [d|]; simpl; [|easy].
    now destruct (truthy _ && truthy _).
Qed.

Lemma awaits_bind n1 n2 n {A B} (m : Mon A) (k : A -> Mon B) :
  (n1 + n2 <= n)%nat ->
  awaits_at_most n1 m -> (forall a, awaits_at_most n2 (k a)) ->
  awaits_at_most n (bind m k).
Proof.
  intros Hn Hm Hk s. unfold bind. specialize (Hm s).
  destruct (m s) as [[a|e] s']; simpl in *; [|lia].
  specialize (Hk a s'). lia.
Qed.

Lemma fetch_awaits_at_most_two start_date end_date :
  awaits_at_most 2 (__fetch_prices_with_fallback start_date end_date : Mon _).
Proof.
  intros s. fetch_cases s start_date end_date; rewrite ?length_app; simpl; lia.
Qed.

Lemma suite_awaits_at_most_six today tomorrow day_after_tomorrow :
  awaits_at_most 6 (update_try_suite today tomorrow day_after_tomorrow : Mon _).
Proof.
  unfold update_try_suite.
  apply (awaits_bind 2 4); [lia | apply fetch_awaits_at_most_two | intros p1].
  apply (awaits_bind 2 2); [lia | apply fetch_awaits_at_most_two | intros p2].
  apply (awaits_bind 1 1); [lia | | intros ms].
  - intros s. unfold bind, get, await, ret; simpl.
    destruct (is_authenticated (api s)); simpl; [|lia].
    destruct (month_summary (api s) (site_reference s)); simpl;
      rewrite length_app; simpl; lia.
  - apply (awaits_bind 1 0); [lia | | intros inv s; simpl; lia].
    intros s. unfold bind, get, await, ret; simpl.
    destruct (is_authenticated (api s)); simpl; [|lia].
    destruct (invoices (api s) (site_reference s)); simpl;
      rewrite length_app; simpl; lia.
Qed.

(** X12.  No cycle awaits more than seven operations of the client:
    at most two per window, the month summary, the invoices, and one
    renewal. *)
Theorem cycle_awaits_at_most_seven today s :
  (length (api_calls (snd (_async_update_data get_future_prices today s)))
   <= length (api_calls s) + 7)%nat.
Proof.
  pose proof (suite_awaits_at_most_six today (today + 1) (today + 2) s) as Hsix.
  destruct (cycle_unfold today s) as (calls & logs & _ & Hs & ->).
  rewrite Hs in Hsix. simpl in Hsix. rewrite length_app in Hsix.
  destruct (fst (update_try_suite _ _ _ s)) as [r|e]; simpl;
    [rewrite length_app; lia|].
  destruct (update_handlers get_future_prices e) as [h|] eqn:Eh; simpl;
    [|rewrite length_app; lia].
  destruct (handler_run e h (emit calls
              ((DEBUG, "Fetching Frank Energie data"%string) :: logs) s) Eh)
    as ([-> | ->] & _); simpl; rewrite ?length_app; simpl; lia.
Qed.

(** When the [try] suite runs to its end, and with what. *)
Lemma suite_success_points today s p1 p2 ms inv :
  fst (update_try_suite today (today + 1) (today + 2) s)
  = Return (p1, p2, ms, inv)
  <-> fst (__fetch_prices_with_fallback today (today + 1) s) = Return p1
      /\ fst (__fetch_prices_with_fallback (today + 1) (today + 2) s) = Return p2
      /\ (if is_authenticated (api s)
          then (exists m, month_summary (api s) (site_reference s) = inr m
                          /\ ms = Some m)
               /\ (exists i, invoices (api s) (site_reference s) = inr i
                             /\ inv = Some i)
          else ms = None /\ inv = None).
Proof.
  unfold update_try_suite.
  destruct (fetch_run today (today + 1) s) as (c1 & l1 & _ & _ & U1).
  destruct (fetch_run (today + 1) (today + 2) s) as (c2 & l2 & _ & _ & U2).
  unfold bind at 1. rewrite (U1 s eq_refl eq_refl).
  destruct (fst (__fetch_prices_with_fallback today (today + 1) s))
    as [q1|e1]; simpl; [|easy].
  unfold bind at 1. rewrite (U2 (emit c1 l1 s) eq_refl eq_refl).
  destruct (fst (__fetch_prices_with_fallback (today + 1) (today + 2) s))
    as [q2|e2]; simpl; [|easy].
  unfold bind, get, await, ret; simpl.
  destruct (is_authenticated (api s)) eqn:Ha; simpl;
    repeat (rewrite Ha; simpl).
  - destruct (month_summary (api s) (site_reference s)) as [em|m]; simpl;
      repeat (rewrite Ha; simpl).
    + split; [discriminate|]. now intros (_ & _ & (m & ? & _) & _).
    + destruct (invoices (api s) (site_reference s)) as [ei|i]; simpl.
      * split; [discriminate|]. now intros (_ & _ & _ & (i & ? & _)).
      * split.
        -- intros [= <- <- <- <-]. eauto 10.
        -- intros ([= <-] & [= <-] & (m' & [= <-] & ->) & (i' & [= <-] & ->)).
           reflexivity.
  - split.
    + now intros [= <- <- <- <-].
    + now intros ([= <-] & [= <-] & -> & ->).
Qed.

(** X13.  In a cycle of a logged-in client whose [try] suite runs to
    its end, the snapshot's month summary and invoices are what the
    client answered for the coordinator's own site reference. *)
Theorem account_data_is_for_own_site today s p1 p2 ms inv :
  is_authenticated (api s) = true ->
  fst (update_try_suite today (today + 1) (today + 2) s)
  = Return (p1, p2, ms, inv) ->
  exists m i d,
    month_summary (api s) (site_reference s) = inr m
    /\ invoices (api s) (site_reference s) = inr i
    /\ fst (_async_update_data get_future_prices today s) = Return d
    /\ DATA_MONTH_SUMMARY d = Some m
    /\ DATA_INVOICES d = Some i.
Proof.
  intros Ha H. pose proof H as H'.
  apply suite_success_points in H'. rewrite Ha in H'.
  destruct H' as (_ & _ & (m & Hm & ->) & (i & Hi & ->)).
  destruct (cycle_unfold today s) as (calls & logs & _ & _ & ->).
  rewrite H. simpl. exists m, i. eexists. repeat split; eauto.
Qed.

(** X15.  What the [except UpdateFailed] clause does with an
    [UpdateFailed] raised inside the [try] suite: the cached snapshot
    is returned, after a warning with the message, when it has future
    prices for electricity and for gas; otherwise the same
    [UpdateFailed] leaves the cycle; and with no cached snapshot at all
    the subscript on [None] makes the clause itself fail with
    [TypeError]. *)
Theorem stale_clause_outcome today s msg :
  fst (update_try_suite today (today + 1) (today + 2) s)
  = Raise (UpdateFailed msg) ->
  let r := _async_update_data get_future_prices today s in
  match data s with
  | None => exists why, fst r = Raise (TypeError why)
  | Some d =>
      if has_future_data get_future_prices s
      then fst r = Return d /\ last (log (snd r)) = Some (WARNING, msg)
      else fst r = Raise (UpdateFailed msg)
  end
  /\ data (snd r) = data s.
Proof.
  intros H r. subst r.
  destruct (cycle_unfold today s) as (calls & logs & _ & _ & ->).
  rewrite H. unfold has_future_data. simpl. unfold bind, get, LOGGER; simpl.
  destruct (data s) as [d|] eqn:Hd; simpl; rewrite ?Hd; simpl; [|eauto].
  destruct (truthy _ && truthy _); simpl; rewrite ?Hd; [|auto].
  split; [|reflexivity]. split; [reflexivity|]. apply last_snoc.
Qed.

(** X16.  The first cycle of a coordinator just built by [__init__]
    has nothing cached to fall back on: if it returns, the snapshot is
    the one built from its own completed [try] suite. *)
Theorem first_cycle_returns_only_fresh_data today entry
    (client : FrankEnergieApi Price MonthSummary Invoices)
    (d : FrankEnergieData Price MonthSummary Invoices) :
  fst (_async_update_data get_future_prices today (__init__ entry client))
  = Return d ->
  exists r,
    fst (update_try_suite today (today + 1) (today + 2) (__init__ entry client))
    = Return r
    /\ d = new_snapshot r.
Proof.
  destruct (cycle_unfold today (__init__ entry client))
    as (calls & logs & _ & _ & ->).
  destruct (fst (update_try_suite _ _ _ _)) as [r|e]; simpl.
  - intros [= <-]. now exists r.
  - destruct (update_handlers get_future_prices e) as [h|] eqn:Eh;
      [|discriminate].
    intros H. apply (proj2 (handler_run e h _ Eh)) in H. discriminate H.
Qed.

(** X17.  The end of the window is used for public prices only:
    [user_prices] is given the start date alone, so for a logged-in
    client whose user prices are complete the fetch yields the same
    result whatever end date it is called with. *)
Theorem user_prices_ignore_window_end start_date end_date end_date' s user :
  is_authenticated (api s) = true ->
  user_prices (api s) start_date (site_reference s) = inr user ->
  all (gas user) <> [] ->
  all (electricity user) <> [] ->
  __fetch_prices_with_fallback start_date end_date s
  = __fetch_prices_with_fallback start_date end_date' s.
Proof.
  intros Ha Hu Hg He.
  unfold __fetch_prices_with_fallback, bind, get, await, ret; simpl.
  rewrite Ha; simpl. rewrite Hu; simpl.
  destruct (all (gas user)); [contradiction|].
  destruct (all (electricity user)); [contradiction|]. reflexivity.
Qed.

End Properties.

(** * The unauthenticated session *)

Section Session.

Context {Price MonthSummary Invoices : Type}.

Implicit Types (s : Coordinator Price MonthSummary Invoices)
               (gfp : PriceData Price -> list Price) (today : date).

Lemma cycle_keeps_client gfp today s :
  api (snd (_async_update_data gfp today s)) = api s.
Proof.
  destruct (cycle_unfold gfp today s) as (calls & logs & _ & _ & ->).
  destruct (fst (update_try_suite _ _ _ s)) as [r|e]; simpl; [reflexivity|].
  destruct e as [msg|msg|msg| |msg|msg]; simpl; auto.
  - now destruct (String.prefix _ msg).
  - unfold bind, LOGGER, __try_renew_token, try_except, bind, get, await,
      async_update_entry, raise; simpl.
    now destruct (renew_token (api s)) as [[]|tokens].
  - unfold bind, get; simpl. destruct (data s) as [d|]; simpl; auto.
    now destruct (truthy _ && truthy _).
Qed.

(** What the clause chosen for [e] adds to the calls. *)
Lemma handled_calls gfp e s :
  api_calls (snd (match update_handlers gfp e with
                  | Some h => h s
                  | None => (Raise e, s)
                  end))
  = api_calls s ++ match e with
                   | AuthException _ => [CallRenewToken]
                   | _ => []
                   end.
Proof.
  destruct e as [msg|msg|msg| |msg|msg]; simpl; rewrite ?app_nil_r; auto.
  - now destruct (String.prefix _ msg).
  - unfold bind, LOGGER, __try_renew_token, try_except, bind, get, await,
      async_update_entry, raise; simpl.
    now destruct (renew_token (api s)) as [[]|tokens].
  - unfold bind, get; simpl. destruct (data s) as [d|]; simpl; auto.
    now destruct (truthy _ && truthy _).
Qed.

Lemma cycle_keeps_snapshot gfp today s :
  data (snd (_async_update_data gfp today s)) = data s.
Proof.
  destruct (cycle_unfold gfp today s) as (calls & logs & _ & _ & ->).
  destruct (fst (update_try_suite _ _ _ s)) as [r|e]; simpl; [reflexivity|].
  destruct e as [msg|msg|msg| |msg|msg]; simpl; auto.
  - now destruct (String.prefix _ msg).
  - unfold bind, LOGGER, __try_renew_token, try_except, bind, get, await,
      async_update_entry, raise; simpl.
    now destruct (renew_token (api s)) as [[]|tokens].
  - unfold bind, get; simpl.
    destruct (data s) as [d|] eqn:Hd; simpl; rewrite ?Hd; auto.
    destruct (truthy _ && truthy _); simpl; now rewrite ?Hd.
Qed.

(** Throughout an unauthenticated session the client is not logged in
    and the cached snapshot, once there is one, carries no month
    summary and no invoices. *)
Lemma unauthenticated_session_invariant s :
  unauthenticated_session s ->
  is_authenticated (api s) = false
  /\ (forall d, data s = Some d ->
                DATA_MONTH_SUMMARY d = None /\ DATA_INVOICES d = None).
Proof.
  induction 1
    as [entry client Hc | gfp today s Hs [IHa IHd] | client s Hs [IHa IHd] Hc].
  - split; [exact Hc | discriminate].
  - pose proof (cycle_keeps_client gfp today s) as Hk.
    pose proof (unauthenticated_cycle_step gfp today s IHa IHd) as [Hr _].
    pose proof (cycle_keeps_snapshot gfp today s) as Hd.
    unfold async_refresh.
    destruct (_async_update_data gfp today s) as [[d|e] s']; simpl in *.
    + split; [congruence|]. intros d' [= <-]. now apply Hr.
    + split; [congruence|]. intros d' Hd'. apply IHd. congruence.
  - split; [exact Hc | exact IHd].
Qed.

(** C7.  In every cycle of an unauthenticated session: each price
    fetch is one await of the public [prices] operation for its
    window, whose answer is the fetch's result; the operations of the
    cycle are [prices] for today's window, [prices] for tomorrow's
    window if the first answered, and nothing else but a [renew_token]
    should [prices] raise an auth exception, so [user_prices],
    [month_summary] and [invoices] are never called; and the month
    summary and the invoices of the snapshot the cycle returns are
    [None]. *)
Theorem unauthenticated_session_is_public_only gfp today s :
  unauthenticated_session s ->
  let r := _async_update_data gfp today s in
  (forall start_date end_date s',
     api s' = api s ->
     __fetch_prices_with_fallback start_date end_date s'
     = (match prices (api s) start_date end_date with
        | inl e => Raise e
        | inr p => Return p
        end,
        emit [CallPrices start_date end_date] [] s'))
  /\ api_calls (snd r)
     = api_calls s
       ++ CallPrices today (today + 1)
          :: match prices (api s) today (today + 1) with
             | inr _ => [CallPrices (today + 1) (today + 2)]
             | inl _ => []
             end
       ++ match fst (update_try_suite today (today + 1) (today + 2) s) with
          | Raise (AuthException _) => [CallRenewToken]
          | _ => []
          end
  /\ (forall d, fst r = Return d ->
                DATA_MONTH_SUMMARY d = None /\ DATA_INVOICES d = None).
Proof.
  intros Hs r. subst r.
  destruct (unauthenticated_session_invariant s Hs) as [Ha Hc].
  split; [|split].
  - intros start_date end_date s' Hs'.
    unfold __fetch_prices_with_fallback, bind, get, await; simpl.
    rewrite Hs', Ha. simpl. unfold emit. simpl. now rewrite ?Hs', app_nil_r.
  - destruct (cycle_unfold gfp today s) as (calls & logs & _ & Hsuite & ->).
    rewrite (suite_unauthenticated _ _ _ _ Ha) in Hsuite |- *.
    destruct (prices (api s) today (today + 1)) as [e1|q1];
      [| destruct (prices (api s) (today + 1) (today + 2)) as [e2|q2]];
      apply (f_equal (fun x => api_calls (snd x))) in Hsuite;
      simpl in Hsuite; apply app_inv_head in Hsuite; subst calls; simpl;
      rewrite ?handled_calls; simpl; rewrite <- ?app_assoc; simpl;
      now rewrite ?app_nil_r.
  - exact (proj1 (unauthenticated_cycle_step gfp today s Ha Hc)).
Qed.

End Session.

(** * The claims on concrete runs

    Coordinator for site [site-1], cycle started on day 10. *)

(** C1.  The server is unreachable ([prices] raises a request exception
    that is not tagged [user-error:]) while the cached snapshot still
    has future electricity and gas prices at hour 100: the cycle ends
    in [UpdateFailed] instead of returning the cached snapshot. *)
Theorem generic_failure_with_future_data_still_fails :
  let s := Scenario.coordinator Scenario.unreachable_api (Some Scenario.cached) in
  has_future_data (Scenario.future_at 100) s = true
  /\ fst (update_try_suite 10 11 12 s)
     = Raise (RequestException "Request failed: 503")
  /\ String.prefix "user-error:" "Request failed: 503" = false
  /\ fst (_async_update_data (Scenario.future_at 100) 10 s)
     = Raise (UpdateFailed "Request failed: 503")
  /\ fst (_async_update_data (Scenario.future_at 100) 10 s)
     <> Return Scenario.cached.
Proof. repeat split; try reflexivity. discriminate. Qed.

Lemma auth_expiry_renews_then_fails_witness :
  let refused := Scenario.coordinator
                   (Scenario.expired_api
                      (inl (AuthException "refresh token revoked")))
                   (Some Scenario.cached) in
  let renewed := Scenario.coordinator
                   (Scenario.expired_api (inr (mkAuthentication "a1" "r1")))
                   (Some Scenario.cached) in
  (exists e, fst (_async_update_data (Scenario.future_at 100) 10 refused)
             = Raise e)
  /\ fst (_async_update_data (Scenario.future_at 100) 10 renewed)
     = Raise (UpdateFailed "jwt expired").
Proof.
  intros refused renewed. split.
  - exact (proj1 (proj2
             (auth_expiry_renews_then_fails (Scenario.future_at 100) 10
                refused "jwt expired" eq_refl))).
  - destruct (auth_expiry_renews_then_fails (Scenario.future_at 100) 10
                renewed "jwt expired" eq_refl) as (_ & _ & _ & Hok & _).
    exact (proj1 (Hok (mkAuthentication "a1" "r1") eq_refl)).
Defined.

Lemma user_error_escalates_to_reauth_witness :
  let s := Scenario.coordinator Scenario.user_error_api (Some Scenario.cached) in
  has_future_data (Scenario.future_at 100) s = true
  /\ fst (_async_update_data (Scenario.future_at 100) 10 s)
     = Raise ConfigEntryAuthFailed.
Proof.
  intros s. split; [reflexivity|].
  exact (proj1 (user_error_escalates_to_reauth (Scenario.future_at 100) 10 s
                  "user-error:auth-not-authorised" eq_refl eq_refl)).
Defined.

Lemma generic_failure_without_future_data_propagates_witness :
  let s := Scenario.coordinator Scenario.unreachable_api (Some Scenario.cached) in
  fst (_async_update_data (Scenario.future_at 200) 10 s)
  = Raise (UpdateFailed "Request failed: 503").
Proof.
  intros s.
  exact (proj1 (generic_failure_without_future_data_propagates
                  (Scenario.future_at 200) 10 s "Request failed: 503"
                  eq_refl eq_refl eq_refl)).
Defined.

Lemma fallback_is_per_commodity_witness :
  fst (__fetch_prices_with_fallback 10 11
         (Scenario.coordinator
            (Scenario.account_api Scenario.user_no_electricity) None))
  = Return (mkMarketPrices (Scenario.series [11; 12]) (Scenario.series [201]))
  /\ fst (__fetch_prices_with_fallback 10 11
            (Scenario.coordinator
               (Scenario.account_api Scenario.user_no_gas) None))
     = Return (mkMarketPrices (Scenario.series [101; 102]) (Scenario.series [21])).
Proof.
  split.
  - refine (proj1 (fallback_is_per_commodity 10 11
                     (Scenario.coordinator
                        (Scenario.account_api Scenario.user_no_electricity) None)
                     Scenario.user_no_electricity Scenario.public_day
                     eq_refl eq_refl eq_refl) eq_refl _).
    discriminate.
  - refine (proj2 (fallback_is_per_commodity 10 11
                     (Scenario.coordinator
                        (Scenario.account_api Scenario.user_no_gas) None)
                     Scenario.user_no_gas Scenario.public_day
                     eq_refl eq_refl eq_refl) eq_refl _).
    discriminate.
Defined.

Lemma user_prices_returned_as_is_witness :
  let s := Scenario.coordinator (Scenario.account_api Scenario.user_day) None in
  __fetch_prices_with_fallback 10 11 s
  = (Return Scenario.user_day,
     emit [CallUserPrices 10 (Some "site-1"%string)] [] s).
Proof.
  intros s.
  refine (user_prices_returned_as_is 10 11 s Scenario.user_day
            eq_refl eq_refl _ _); discriminate.
Defined.

Lemma unauthenticated_session_is_public_only_witness :
  let s := async_refresh (Scenario.future_at 100) 10
             (__init__ Scenario.stored_entry Scenario.public_api) in
  let r := _async_update_data (Scenario.future_at 101) 10 s in
  api_calls (snd r)
  = api_calls s ++ [CallPrices 10 11; CallPrices 11 12]
  /\ (forall d, fst r = Return d ->
                DATA_MONTH_SUMMARY d = None /\ DATA_INVOICES d = None).
Proof.
  intros s r.
  exact (proj2 (unauthenticated_session_is_public_only
                  (Scenario.future_at 101) 10 s
                  (session_refreshed (Scenario.future_at 100) 10 _
                     (session_built Scenario.stored_entry Scenario.public_api
                        eq_refl)))).
Defined.

Lemma successful_cycle_concatenates_two_windows_witness :
  let s := Scenario.coordinator Scenario.public_api None in
  exists d,
    fst (_async_update_data (Scenario.future_at 100) 10 s) = Return d
    /\ all (DATA_ELECTRICITY d) = [241; 242] ++ [265; 266]
    /\ all (DATA_GAS d) = [264] ++ [288].
Proof.
  intros s.
  exact (proj1 (proj2 (proj2
           (successful_cycle_concatenates_two_windows
              (Scenario.future_at 100) 10 s
              (Scenario.public_window 10) (Scenario.public_window 11)
              None None eq_refl)))).
Defined.

Lemma request_exception_classified_by_prefix_witness :
  let s := Scenario.coordinator Scenario.user_error_api (Some Scenario.cached) in
  fst (_async_update_data (Scenario.future_at 100) 10 s)
  = Raise ConfigEntryAuthFailed.
Proof.
  intros s.
  apply (proj1 (request_exception_classified_by_prefix
                  (Scenario.future_at 100) 10 s
                  "user-error:auth-not-authorised" eq_refl)).
  exists "auth-not-authorised"%string. reflexivity.
Defined.

(** * Further properties on concrete runs *)

Lemma fetch_series_provenance_witness :
  let s := Scenario.coordinator
             (Scenario.account_api Scenario.user_nothing) None in
  exists public,
    prices (api s) 10 11 = inr public
    /\ gas (mkMarketPrices (electricity Scenario.public_day)
                           (gas Scenario.public_day))
       = gas public.
Proof.
  intros s.
  exact (proj1 (proj2 (proj2
           (fetch_series_provenance 10 11 s Scenario.user_nothing
              (mkMarketPrices (electricity Scenario.public_day)
                              (gas Scenario.public_day))
              eq_refl eq_refl eq_refl))) eq_refl).
Defined.

Lemma fetch_result_complete_witness :
  let s := Scenario.coordinator
             (Scenario.account_api Scenario.user_no_gas) None in
  all (gas (mkMarketPrices (Scenario.series [101; 102]) (Scenario.series [21])))
  <> []
  /\ all (electricity
            (mkMarketPrices (Scenario.series [101; 102]) (Scenario.series [21])))
     <> [].
Proof.
  intros s.
  refine (fetch_result_complete 10 11 s _ _ eq_refl).
  intros public [= <-]. split; discriminate.
Defined.

Lemma renewal_persists_token_pair_witness :
  let s := Scenario.coordinator
             (Scenario.account_api Scenario.user_day) None in
  entry_data (snd (__try_renew_token s)) !! "site_reference"%string = None.
Proof.
  intros s.
  refine (proj2 (proj2 (proj2
            (renewal_persists_token_pair s (mkAuthentication "a1" "r1") eq_refl)))
            "site_reference"%string _ _); discriminate.
Defined.

Lemma coordinator_rebuilt_after_renewal_has_no_site_witness :
  let s := __init__ Scenario.stored_entry
             (Scenario.account_api Scenario.user_day) in
  site_reference s = Some "site-1"%string
  /\ site_reference
       (__init__ (entry_data (snd (__try_renew_token s)))
                 (api (snd (__try_renew_token s))))
     = None.
Proof.
  intros s. split; [reflexivity|].
  exact (proj2 (coordinator_rebuilt_after_renewal_has_no_site s
                  (mkAuthentication "a1" "r1") eq_refl)).
Defined.

Lemma renewal_error_leaves_cycle_unclassified_witness :
  let s := Scenario.coordinator
             (Scenario.expired_api (inl (RequestException "Request failed: 503")))
             (Some Scenario.cached) in
  fst (_async_update_data (Scenario.future_at 100) 10 s)
  = Raise (RequestException "Request failed: 503").
Proof.
  intros s.
  refine (proj1 (renewal_error_leaves_cycle_unclassified
                   (Scenario.future_at 100) 10 s "jwt expired"
                   (RequestException "Request failed: 503")
                   eq_refl eq_refl _)).
  discriminate.
Defined.

Lemma unnamed_exception_propagates_witness :
  let s := Scenario.coordinator Scenario.timeout_api (Some Scenario.cached) in
  fst (_async_update_data (Scenario.future_at 100) 10 s)
  = Raise (OtherException "Request failed: timeout").
Proof.
  intros s.
  exact (proj1 (unnamed_exception_propagates
                  (Scenario.future_at 100) 10 s
                  (OtherException "Request failed: timeout") eq_refl I)).
Defined.

Lemma entry_changes_only_by_renewal_witness :
  let s := Scenario.coordinator
             (Scenario.expired_api (inr (mkAuthentication "a1" "r1")))
             (Some Scenario.cached) in
  exists msg tokens,
    fst (update_try_suite 10 (10 + 1) (10 + 2) s) = Raise (AuthException msg)
    /\ renew_token (api s) = inr tokens.
Proof.
  intros s.
  refine (entry_changes_only_by_renewal (Scenario.future_at 100) 10 s _).
  intros E. apply (f_equal (fun m => m !! CONF_TOKEN)) in E.
  vm_compute in E. discriminate E.
Defined.

Lemma account_data_is_for_own_site_witness :
  let s := Scenario.coordinator
             (Scenario.account_api Scenario.user_day) None in
  exists m i d,
    month_summary (api s) (site_reference s) = inr m
    /\ invoices (api s) (site_reference s) = inr i
    /\ fst (_async_update_data (Scenario.future_at 100) 10 s) = Return d
    /\ DATA_MONTH_SUMMARY d = Some m
    /\ DATA_INVOICES d = Some i.
Proof.
  intros s.
  exact (account_data_is_for_own_site (Scenario.future_at 100) 10 s
           Scenario.user_day Scenario.user_day (Some 7%nat) (Some 3%nat)
           eq_refl eq_refl).
Defined.

Lemma stale_clause_outcome_witness :
  let s := Scenario.coordinator
             Scenario.update_failed_api (Some Scenario.cached) in
  let r := _async_update_data (Scenario.future_at 100) 10 s in
  fst r = Return Scenario.cached
  /\ last (log (snd r)) = Some (WARNING, "no data"%string).
Proof.
  intros s r.
  exact (proj1 (stale_clause_outcome (Scenario.future_at 100) 10 s
                  "no data" eq_refl)).
Defined.

Lemma first_cycle_returns_only_fresh_data_witness :
  exists r,
    fst (update_try_suite 10 (10 + 1) (10 + 2)
           (__init__ Scenario.stored_entry Scenario.public_api))
    = Return r
    /\ mkFrankEnergieData
         (Scenario.series [241; 242; 265; 266]) (Scenario.series [264; 288])
         None None
       = new_snapshot r.
Proof.
  exact (first_cycle_returns_only_fresh_data (Scenario.future_at 100) 10
           Scenario.stored_entry Scenario.public_api _ eq_refl).
Defined.

Lemma user_prices_ignore_window_end_witness :
  let s := Scenario.coordinator
             (Scenario.account_api Scenario.user_day) None in
  __fetch_prices_with_fallback 10 11 s = __fetch_prices_with_fallback 10 40 s.
Proof.
  intros s.
  refine (user_prices_ignore_window_end 10 11 40 s Scenario.user_day
            eq_refl eq_refl _ _); discriminate.
Defined.
